(** * Shallow embedding of samples/data_processor.py

    The record pipeline of [DataProcessor]: the four processing steps, the
    step registry, [_process_single_record], [process_batch],
    [get_statistics], [_load_config] and [export_results]; [DataRecord]
    construction and [to_dict]; and the batching loop of [main].

    Modelling choices:
    - Python floats are modelled as exact rationals [Q]; [round(x, 2)] is the
      correctly rounded, round-half-to-even result on the exact value, which
      is what CPython computes for the exact value of its float argument.
    - Python dicts ([metadata]) are association lists keeping insertion
      order; [d[k] = v] updates an existing key in place and appends a new
      one at the end.
    - A step mutates the record in place and returns it; an exception raised
      by a step leaves the record in the state it had at the raise, so the
      error outcome carries that state.
    - [datetime.now().isoformat()] read by [enrich] is a parameter.
    - The scheduling of [asyncio.wait_for(asyncio.gather(...))] is an input:
      either the gather finished before the deadline ([Gathered]) or the
      deadline elapsed ([TimedOut]), in which case the records are in
      whatever state the abandoned tasks left them. The records of a batch
      are distinct objects; each task touches only its own record, so the
      result of task [i] is the pipeline applied to record [i]. *)

From Stdlib Require Import QArith Qround ZArith String List Bool Lia Lqa.
Import ListNotations.

Open Scope Q_scope.

(** ** Data model *)

Inductive Status := PENDING | PROCESSING | COMPLETED | FAILED.

(** Values stored in [metadata] by the pipeline. *)
Inductive MetaValue :=
| MBool (b : bool)
| MStr (s : string)
| MNum (q : Q).

Definition Dict := list (string * MetaValue).

(** [d[k] = v] on a Python dict. *)
Fixpoint dict_set (k : string) (v : MetaValue) (d : Dict) : Dict :=
  match d with
  | [] => [(k, v)]
  | (k', v') :: t =>
      if String.eqb k k' then (k, v) :: t else (k', v') :: dict_set k v t
  end.

(** [d.get(k)]. *)
Fixpoint dict_get (k : string) (d : Dict) : option MetaValue :=
  match d with
  | [] => None
  | (k', v') :: t => if String.eqb k k' then Some v' else dict_get k t
  end.

Record DataRecord := mkRecord {
  id : string;
  timestamp : Z;
  value : Q;
  metadata : Dict;
  status : Status;
  tags : list string
}.

Definition set_value (v : Q) (r : DataRecord) : DataRecord :=
  mkRecord (id r) (timestamp r) v (metadata r) (status r) (tags r).
Definition set_metadata (m : Dict) (r : DataRecord) : DataRecord :=
  mkRecord (id r) (timestamp r) (value r) m (status r) (tags r).
Definition set_status (s : Status) (r : DataRecord) : DataRecord :=
  mkRecord (id r) (timestamp r) (value r) (metadata r) s (tags r).
Definition set_tags (ts : list string) (r : DataRecord) : DataRecord :=
  mkRecord (id r) (timestamp r) (value r) (metadata r) (status r) ts.

Record ValidationRules := mkRules {
  min_value : Q;
  max_value : Q;
  required_tags : list string
}.

Record Config := mkConfig {
  batch_size : Z;
  timeout : Q;
  validation_rules : ValidationRules;
  processing_steps : list string
}.

(** [_load_config] without a config file. *)
Definition default_config : Config :=
  mkConfig 100 30 (mkRules 0 1000 ["source"; "type"]%string)
    ["validate"; "normalize"; "categorize"; "enrich"]%string.

Definition with_steps (steps : list string) (c : Config) : Config :=
  mkConfig (batch_size c) (timeout c) (validation_rules c) steps.

(** Exceptions raised by the steps ([ValueError] with its message). *)
Inductive Exc :=
| ValueOutOfRange (v : Q)
| MissingRequiredTags (missing : list string).

(** Outcome of a step or of the whole per-record pipeline: the record
    returned, or the exception raised with the record as it was left. *)
Inductive StepResult :=
| Ok (r : DataRecord)
| Raise (e : Exc) (r : DataRecord).

(** ** Python built-ins *)

(** [max(a, b)]: keeps [a] unless [b > a]. *)
Definition py_max (a b : Q) : Q := if Qlt_le_dec a b then b else a.

(** [min(a, b)]: keeps [a] unless [b < a]. *)
Definition py_min (a b : Q) : Q := if Qlt_le_dec b a then b else a.

(** Round half to even to an integer. *)
Definition round_half_even (x : Q) : Z :=
  let f := Qfloor x in
  match Qcompare (x - inject_Z f) (1 # 2) with
  | Lt => f
  | Gt => (f + 1)%Z
  | Eq => if Z.even f then f else (f + 1)%Z
  end.

(** [round(x, 2)]. *)
Definition py_round2 (x : Q) : Q := inject_Z (round_half_even (x * 100)) / 100.

(** [a / b]: [ZeroDivisionError] when [b == 0]. *)
Definition py_div (a b : Q) : option Q :=
  if Qeq_bool b 0 then None else Some (a / b).

(** ** The processing steps and the pipeline *)

Section Pipeline.

Variable config : Config.

(** The ISO-8601 text of [datetime.now()] read by [_enrich_metadata]. *)
Variable now_iso : string.

(** Python [x in xs] on a list of strings. *)
Definition str_in (x : string) (xs : list string) : bool :=
  existsb (String.eqb x) xs.

(** [set(rules['required_tags']) - set(record.tags)]. *)
Definition missing_tags (req ts : list string) : list string :=
  filter (fun t => negb (str_in t ts)) req.

Definition _validate_record (record : DataRecord) : StepResult :=
  let rules := validation_rules config in
  if negb (Qle_bool (min_value rules) (value record)
           && Qle_bool (value record) (max_value rules))
  then Raise (ValueOutOfRange (value record)) record
  else if negb (forallb (fun tag => str_in tag (tags record)) (required_tags rules))
  then Raise (MissingRequiredTags (missing_tags (required_tags rules) (tags record))) record
  else Ok record.

(** The expression of line 182. *)
Definition normalized_value (v : Q) : Q :=
  py_round2 (100 * (1 + (v - 100) / 900)).

Definition _normalize_value (record : DataRecord) : StepResult :=
  let record :=
    if Qlt_le_dec 100 (value record)
    then set_value (normalized_value (value record)) record
    else record in
  let record := set_metadata (dict_set "normalized" (MBool true) (metadata record)) record in
  Ok record.

Definition category_of (v : Q) : string :=
  if Qlt_le_dec v 30 then "low"
  else if Qlt_le_dec v 70 then "medium"
  else "high".

Definition _categorize_value (record : DataRecord) : StepResult :=
  let category := category_of (value record) in
  let record := set_metadata (dict_set "category" (MStr category) (metadata record)) record in
  let record := set_tags (tags record ++ [String.append "category:" category]) record in
  Ok record.

Definition _enrich_metadata (record : DataRecord) : StepResult :=
  let m := metadata record in
  let m := dict_set "processing_time" (MStr now_iso) m in
  let m := dict_set "pipeline_version" (MStr "2.1.0") m in
  let m := dict_set "quality_score" (MNum (py_min 100 (value record * (6 # 5)))) m in
  Ok (set_metadata m record).

(** [self.processors], in its insertion order. *)
Definition processors : list (string * (DataRecord -> StepResult)) :=
  [("normalize"%string, _normalize_value);
   ("categorize"%string, _categorize_value);
   ("validate"%string, _validate_record);
   ("enrich"%string, _enrich_metadata)].

Fixpoint lookup_processor (name : string)
    (ps : list (string * (DataRecord -> StepResult))) : option (DataRecord -> StepResult) :=
  match ps with
  | [] => None
  | (k, p) :: t => if String.eqb name k then Some p else lookup_processor name t
  end.

(** The loop of lines 150-158: a name missing from [self.processors] is
    passed over, an exception of a step is re-raised. *)
Fixpoint run_steps (steps : list string) (record : DataRecord) : StepResult :=
  match steps with
  | [] => Ok record
  | step_name :: rest =>
      match lookup_processor step_name processors with
      | None => run_steps rest record
      | Some processor =>
          match processor record with
          | Ok record' => run_steps rest record'
          | Raise e record' => Raise e record'
          end
      end
  end.

Definition _process_single_record (record : DataRecord) : StepResult :=
  let record := set_status PROCESSING record in
  match run_steps (processing_steps config) record with
  | Ok record' => Ok (set_status COMPLETED record')
  | Raise e record' => Raise e record'
  end.

End Pipeline.

(** ** Batches and statistics *)

Record Stats := mkStats {
  processed : Z;
  failed : Z;
  start_time : Q
}.

(** How [asyncio.wait_for(asyncio.gather(..., return_exceptions=True),
    timeout)] ended: all tasks finished before the deadline, or the deadline
    elapsed and [asyncio.TimeoutError] was raised, the records being left
    as the abandoned tasks left them. *)
Inductive GatherOutcome :=
| Gathered
| TimedOut (abandoned : list DataRecord).

(** The loop of lines 129-139 over [zip(records, results)]: returns
    [processed_records], the records after the loop, and the counters. *)
Fixpoint handle_results (results : list StepResult) (st : Stats)
    : list DataRecord * list DataRecord * Stats :=
  match results with
  | [] => ([], [], st)
  | Raise _ record :: rest =>
      let st' := mkStats (processed st) (failed st + 1) (start_time st) in
      let '(out, recs, st'') := handle_results rest st' in
      (out, set_status FAILED record :: recs, st'')
  | Ok record :: rest =>
      let st' := mkStats (processed st + 1) (failed st) (start_time st) in
      let '(out, recs, st'') := handle_results rest st' in
      (record :: out, record :: recs, st'')
  end.

(** [process_batch]: the returned list, the batch records after the call,
    and the counters after the call. *)
Definition process_batch (config : Config) (now_iso : string) (st : Stats)
    (outcome : GatherOutcome) (records : list DataRecord)
    : list DataRecord * list DataRecord * Stats :=
  match outcome with
  | Gathered =>
      handle_results (map (_process_single_record config now_iso) records) st
  | TimedOut abandoned => ([], abandoned, st)
  end.

Definition batch_output (b : list DataRecord * list DataRecord * Stats) := fst (fst b).
Definition batch_records (b : list DataRecord * list DataRecord * Stats) := snd (fst b).
Definition batch_stats (b : list DataRecord * list DataRecord * Stats) := snd b.

Record Statistics := mkStatistics {
  stat_processed : Z;
  stat_failed : Z;
  stat_start_time : Q;
  runtime_seconds : Q;
  records_per_second : Q;
  success_rate : Q
}.

(** The two denominators of [get_statistics]. *)
Definition rate_denominator (runtime : Q) : Q := py_max runtime 1.
Definition success_denominator (st : Stats) : Q :=
  py_max (inject_Z (processed st + failed st)) 1.

(** [get_statistics] at the time [now] (seconds); [None] stands for an
    exception. *)
Definition get_statistics (st : Stats) (now : Q) : option Statistics :=
  let runtime := now - start_time st in
  match py_div (inject_Z (processed st)) (rate_denominator runtime),
        py_div (inject_Z (processed st)) (success_denominator st) with
  | Some rps, Some sr =>
      Some (mkStatistics (processed st) (failed st) (start_time st) runtime rps sr)
  | _, _ => None
  end.

(** ** Record construction and serialization *)

(** [DataRecord(...)] with [__post_init__]: [ValueError] ([None]) for a
    negative value, then a falsy timestamp replaced by [datetime.now()].
    A [datetime] object is always truthy, so only an absent timestamp
    ([None]) is replaced. Times are seconds ([Z]). *)
Definition DataRecord_new (now : Z) (rid : string) (ts : option Z) (v : Q)
    (md : Dict) (st : Status) (tgs : list string) : option DataRecord :=
  if Qlt_le_dec v 0 then None
  else Some (mkRecord rid (match ts with Some t => t | None => now end) v md st tgs).

(** [Status.value]. *)
Definition status_value (s : Status) : string :=
  match s with
  | PENDING => "pending"
  | PROCESSING => "processing"
  | COMPLETED => "completed"
  | FAILED => "failed"
  end.

(** [age_hours] at the time [now]. *)
Definition age_hours (now : Z) (r : DataRecord) : Q :=
  inject_Z (now - timestamp r) / 3600.

(** JSON documents. *)
#[local] Set Warnings "-register-all".
Inductive Json :=
| JNull
| JBool (b : bool)
| JNum (q : Q)
| JStr (s : string)
| JArr (l : list Json)
| JObj (kvs : list (string * Json)).

Definition json_of_meta (m : MetaValue) : Json :=
  match m with MBool b => JBool b | MStr s => JStr s | MNum q => JNum q end.

(** [to_dict]; [isoformat] renders a timestamp. *)
Definition to_dict (isoformat : Z -> string) (now : Z) (r : DataRecord)
    : list (string * Json) :=
  [("id"%string, JStr (id r));
   ("timestamp"%string, JStr (isoformat (timestamp r)));
   ("value"%string, JNum (value r));
   ("metadata"%string, JObj (map (fun kv => (fst kv, json_of_meta (snd kv))) (metadata r)));
   ("status"%string, JStr (status_value (status r)));
   ("tags"%string, JArr (map JStr (tags r)));
   ("age_hours"%string, JNum (age_hours now r))].

(** [str.lower] on ASCII text. *)
Definition ascii_lower_char (c : Ascii.ascii) : Ascii.ascii :=
  let n := Ascii.nat_of_ascii c in
  if Nat.leb 65 n && Nat.leb n 90 then Ascii.ascii_of_nat (n + 32) else c.

Fixpoint ascii_lower (s : string) : string :=
  match s with
  | EmptyString => EmptyString
  | String c rest => String (ascii_lower_char c) (ascii_lower rest)
  end.

Record ExportDocument := mkExport {
  export_time : string;
  record_count : Z;
  statistics : option Statistics;
  exported_records : list (list (string * Json))
}.

(** [export_results]: the document written to the file, or [None] when
    nothing is written (a format other than json). [now] is the clock in
    seconds, [now_iso] its ISO text. *)
Definition export_results (isoformat : Z -> string) (now : Z) (now_iso : string)
    (st : Stats) (records : list DataRecord) (format : string) : option ExportDocument :=
  if String.eqb (ascii_lower format) "json" then
    Some (mkExport now_iso (Z.of_nat (length records)) (get_statistics st (inject_Z now))
            (map (to_dict isoformat now) records))
  else None.

(** ** Configuration loading *)

Definition JDict := list (string * Json).

Fixpoint jdict_set (k : string) (v : Json) (d : JDict) : JDict :=
  match d with
  | [] => [(k, v)]
  | (k', v') :: t => if String.eqb k k' then (k, v) :: t else (k', v') :: jdict_set k v t
  end.

Fixpoint jdict_get (k : string) (d : JDict) : option Json :=
  match d with
  | [] => None
  | (k', v') :: t => if String.eqb k k' then Some v' else jdict_get k t
  end.

(** [d.update(u)] with [u] a dict (pairs in order; a later duplicate key
    wins, as in the dict [json.load] builds). *)
Definition jdict_update (d u : JDict) : JDict :=
  fold_left (fun acc kv => jdict_set (fst kv) (snd kv) acc) u d.

(** [default_config] of [_load_config]. *)
Definition default_config_json : JDict :=
  [("batch_size"%string, JNum 100);
   ("timeout"%string, JNum 30);
   ("validation_rules"%string,
      JObj [("min_value"%string, JNum 0); ("max_value"%string, JNum 1000);
            ("required_tags"%string, JArr [JStr "source"; JStr "type"])]);
   ("processing_steps"%string,
      JArr [JStr "validate"; JStr "normalize"; JStr "categorize"; JStr "enrich"])].

(** What [_load_config] finds: no path given, a path that does not exist, a
    file that cannot be opened or parsed or whose top level is a JSON
    scalar ([update] raises before changing anything), or a file holding a
    JSON object. A top-level JSON array (which [dict.update] reads as a
    sequence of pairs) is not modelled. *)
Inductive ConfigSource :=
| NoConfigPath
| PathMissing
| LoadFailed
| ParsedObject (user_config : JDict).

Definition _load_config (src : ConfigSource) : JDict :=
  match src with
  | ParsedObject user_config => jdict_update default_config_json user_config
  | _ => default_config_json
  end.

(** ** The batching loop of [main] *)

(** [range(start, stop, step)]; [None] is the [ValueError] of [step = 0]. *)
Definition py_range (start stop step : Z) : option (list Z) :=
  if Z.eqb step 0 then None
  else
    let n := if Z.ltb 0 step then ((stop - start + step - 1) / step)%Z
             else ((start - stop - step - 1) / (- step))%Z in
    Some (map (fun k => (start + Z.of_nat k * step)%Z) (seq 0 (Z.to_nat n))).

(** [l[i:j]] for non-negative bounds (the only ones [main] uses). *)
Definition py_slice {A} (l : list A) (i j : Z) : list A :=
  firstn (Z.to_nat j - Z.to_nat i) (skipn (Z.to_nat i) l).

(** The batches of [main]: [sample_records[i:i + batch_size]] for [i] in
    [range(0, len(sample_records), batch_size)]. *)
Definition main_batches (batch_size : Z) (records : list DataRecord)
    : option (list (list DataRecord)) :=
  match py_range 0 (Z.of_nat (length records)) batch_size with
  | None => None
  | Some idx => Some (map (fun i => py_slice records i (i + batch_size)%Z) idx)
  end.

(** The loop of [main] over its batches: [all_results.extend(results)] after
    each [process_batch]; [outcomes k] is how the gather of batch [k]
    ended. Returns [all_results] and the counters. *)
Fixpoint run_batches (config : Config) (now_iso : string) (outcomes : nat -> GatherOutcome)
    (k : nat) (st : Stats) (batches : list (list DataRecord)) : list DataRecord * Stats :=
  match batches with
  | [] => ([], st)
  | batch :: rest =>
      let res := process_batch config now_iso st (outcomes k) batch in
      let '(all_results, st') :=
        run_batches config now_iso outcomes (S k) (batch_stats res) rest in
      (batch_output res ++ all_results, st')
  end.

(** ** Auxiliary definitions for the statements *)

(** The names registered in [self.processors]. *)
Definition step_names : list string :=
  ["normalize"; "categorize"; "validate"; "enrich"]%string.

(** The validation rules hold of a record. *)
Definition valid_record (config : Config) (r : DataRecord) : Prop :=
  let rules := validation_rules config in
  (min_value rules <= value r <= max_value rules) /\
  (forall t, In t (required_tags rules) -> In t (tags r)).

(** The partition of the spec: low below 30, medium in [30,70), high from 70. *)
Definition category_spec (v : Q) (name : string) : Prop :=
  (name = "low"%string /\ v < 30) \/
  (name = "medium"%string /\ 30 <= v /\ v < 70) \/
  (name = "high"%string /\ 70 <= v).

(** The steps that follow the first ["normalize"] of a step list. *)
Fixpoint after_normalize (steps : list string) : list string :=
  match steps with
  | [] => []
  | s :: rest => if String.eqb s "normalize" then rest else after_normalize rest
  end.

(** What [handle_results] makes of one result. *)
Definition success_of (res : StepResult) : list DataRecord :=
  match res with Ok r => [r] | Raise _ _ => [] end.
Definition final_record (res : StepResult) : DataRecord :=
  match res with Ok r => r | Raise _ r => set_status FAILED r end.
Definition is_ok (res : StepResult) : bool :=
  match res with Ok _ => true | Raise _ _ => false end.

(** The record a step or pipeline leaves, whether it returned or raised. *)
Definition result_record (res : StepResult) : DataRecord :=
  match res with Ok r => r | Raise _ r => r end.

(** The metadata keys the steps write. *)
Definition pipeline_keys : list string :=
  ["normalized"; "category"; "processing_time"; "pipeline_version"; "quality_score"]%string.

(** What the steps keep of a record [r] in the record [r'] they leave: its
    id, timestamp and status, its tags as a prefix, every metadata key they
    do not write, and a non-negative value. *)
Definition pipeline_preserved (r r' : DataRecord) : Prop :=
  id r' = id r /\ timestamp r' = timestamp r /\ status r' = status r /\
  (exists extra, tags r' = tags r ++ extra) /\
  (forall k, ~ In k pipeline_keys -> dict_get k (metadata r') = dict_get k (metadata r)) /\
  (0 <= value r -> 0 <= value r').

(** Concrete inputs. *)
Definition sample_record (rid : string) (v : Q) : DataRecord :=
  mkRecord rid 0 v [("source_id"%string, MStr "sensor_0")] PENDING ["source"; "type"]%string.

Definition fresh_stats : Stats := mkStats 0 0 0.

Definition sample_now : string := "2026-10-17T00:00:00".

(** A configuration that validates again after normalizing, with a minimum
    above 100. *)
Definition revalidating_config : Config :=
  mkConfig 100 30 (mkRules 150 1000 ["source"; "type"]%string)
    ["normalize"; "validate"]%string.

(** ** General lemmas *)

Lemma str_in_iff : forall x xs, str_in x xs = true <-> In x xs.
Proof.
  intros x xs. unfold str_in. rewrite existsb_exists. split.
  - intros [y [Hy Heq]]. apply String.eqb_eq in Heq. subst. exact Hy.
  - intros H. exists x. split; [exact H | apply String.eqb_refl].
Qed.

Lemma dict_get_set : forall k v d, dict_get k (dict_set k v d) = Some v.
Proof.
  intros k v d. induction d as [| [k' v'] t IH]; simpl.
  - rewrite String.eqb_refl. reflexivity.
  - destruct (String.eqb k k') eqn:E; simpl.
    + rewrite String.eqb_refl. reflexivity.
    + rewrite E. exact IH.
Qed.

Lemma validate_record_valid_ok : forall config r,
  valid_record config r -> _validate_record config r = Ok r.
Proof.
  intros config r [[Hmin Hmax] Htags]. unfold _validate_record.
  apply Qle_bool_iff in Hmin. apply Qle_bool_iff in Hmax. rewrite Hmin, Hmax. simpl.
  assert (Hall : forallb (fun tag => str_in tag (tags r))
                   (required_tags (validation_rules config)) = true).
  { apply forallb_forall. intros t Ht. apply str_in_iff. apply Htags. exact Ht. }
  rewrite Hall. reflexivity.
Qed.

Lemma lookup_processor_cases : forall config now_iso s p,
  lookup_processor s (processors config now_iso) = Some p ->
  (s = "normalize"%string /\ p = _normalize_value) \/
  (s = "categorize"%string /\ p = _categorize_value) \/
  (s = "validate"%string /\ p = _validate_record config) \/
  (s = "enrich"%string /\ p = _enrich_metadata now_iso).
Proof.
  intros config now_iso s p H. unfold processors in H; simpl in H.
  destruct (String.eqb s "normalize") eqn:E1;
    [apply String.eqb_eq in E1; inversion H; auto |].
  destruct (String.eqb s "categorize") eqn:E2;
    [apply String.eqb_eq in E2; inversion H; auto |].
  destruct (String.eqb s "validate") eqn:E3;
    [apply String.eqb_eq in E3; inversion H; auto |].
  destruct (String.eqb s "enrich") eqn:E4;
    [apply String.eqb_eq in E4; inversion H; auto | discriminate].
Qed.

Lemma lookup_processor_unknown : forall config now_iso s,
  ~ In s step_names -> lookup_processor s (processors config now_iso) = None.
Proof.
  intros config now_iso s H.
  destruct (lookup_processor s (processors config now_iso)) as [p |] eqn:E;
    [| reflexivity].
  exfalso. apply H. unfold step_names.
  apply lookup_processor_cases in E.
  destruct E as [[-> _] | [[-> _] | [[-> _] | [-> _]]]]; simpl; auto.
Qed.

Lemma run_steps_cons : forall config now_iso s rest r,
  run_steps config now_iso (s :: rest) r =
  match lookup_processor s (processors config now_iso) with
  | None => run_steps config now_iso rest r
  | Some processor =>
      match processor r with
      | Ok r' => run_steps config now_iso rest r'
      | Raise e r' => Raise e r'
      end
  end.
Proof. reflexivity. Qed.

Lemma run_steps_app_skip : forall config now_iso l1 s l2 r,
  lookup_processor s (processors config now_iso) = None ->
  run_steps config now_iso (l1 ++ s :: l2) r = run_steps config now_iso (l1 ++ l2) r.
Proof.
  intros config now_iso l1 s l2. induction l1 as [| x l1 IH]; intros r H;
    rewrite <- ?app_comm_cons, ?app_nil_l, run_steps_cons.
  - rewrite H. reflexivity.
  - rewrite run_steps_cons.
    destruct (lookup_processor x (processors config now_iso)) as [p |].
    + destruct (p r); [apply IH; exact H | reflexivity].
    + apply IH. exact H.
Qed.

Lemma run_steps_with_steps : forall config now_iso steps l r,
  run_steps (with_steps l config) now_iso steps r = run_steps config now_iso steps r.
Proof. reflexivity. Qed.

(** ** Timeout of a batch *)

(** C1: when the gather of a batch does not finish before the deadline,
    [process_batch] returns the empty list, whatever the abandoned tasks had
    achieved (any number of them may have completed their pipeline). *)
Theorem process_batch_timeout_returns_empty :
  forall config now_iso st abandoned records,
  batch_output (process_batch config now_iso st (TimedOut abandoned) records) = [].
Proof. reflexivity. Qed.

(** C10: when the gather of a batch does not finish before the deadline, the
    counters [processed] and [failed] (and the whole statistics state) are
    those from before the call. *)
Theorem process_batch_timeout_stats_unchanged :
  forall config now_iso st abandoned records,
  batch_stats (process_batch config now_iso st (TimedOut abandoned) records) = st.
Proof. reflexivity. Qed.

(** ** The steps *)

(** C4: [_validate_record] raises exactly when the value is outside
    [[min_value, max_value]] or a required tag is missing; otherwise it
    returns the record unchanged. *)
Theorem validate_record_spec : forall config r,
  let rules := validation_rules config in
  ((exists e, _validate_record config r = Raise e r) <->
   ~ ((min_value rules <= value r <= max_value rules) /\
      (forall t, In t (required_tags rules) -> In t (tags r)))) /\
  (((min_value rules <= value r <= max_value rules) /\
    (forall t, In t (required_tags rules) -> In t (tags r))) ->
   _validate_record config r = Ok r).
Proof.
  intros config r rules.
  assert (Hrange : Qle_bool (min_value rules) (value r) && Qle_bool (value r) (max_value rules)
                   = true <-> (min_value rules <= value r <= max_value rules)).
  { rewrite andb_true_iff, !Qle_bool_iff. tauto. }
  assert (Htags : forallb (fun tag => str_in tag (tags r)) (required_tags rules) = true
                  <-> (forall t, In t (required_tags rules) -> In t (tags r))).
  { rewrite forallb_forall. split; intros H t Ht; apply str_in_iff; auto. }
  unfold _validate_record. fold rules.
  destruct (Qle_bool (min_value rules) (value r) && Qle_bool (value r) (max_value rules)) eqn:E1;
  destruct (forallb (fun tag => str_in tag (tags r)) (required_tags rules)) eqn:E2; simpl.
  - split; [split; [intros [e He]; discriminate | tauto] | reflexivity].
  - split; [split; [intros _ [_ H]; apply Htags in H; congruence | intros _; eauto] |].
    intros [_ H]. apply Htags in H. congruence.
  - split; [split; [intros _ [H _]; apply Hrange in H; congruence | intros _; eauto] |].
    intros [H _]. apply Hrange in H. congruence.
  - split; [split; [intros _ [H _]; apply Hrange in H; congruence | intros _; eauto] |].
    intros [H _]. apply Hrange in H. congruence.
Qed.

Lemma validate_record_spec_witness :
  let r := mkRecord "record_0000" 0 50 [] PENDING ["source"; "type"]%string in
  _validate_record default_config r = Ok r /\
  (exists e, _validate_record default_config (set_value 2000 r) = Raise e (set_value 2000 r)).
Proof.
  intros r. split.
  - apply (validate_record_spec default_config r). split.
    + split; vm_compute; discriminate.
    + intros t Ht. exact Ht.
  - apply (validate_record_spec default_config (set_value 2000 r)).
    intros [[_ H] _]. apply H. reflexivity.
Defined.

(** C5: [_normalize_value] sets the value to
    [round(100*(1+(v-100)/900), 2)] when [v > 100], keeps it when
    [v <= 100], and in both cases sets [metadata["normalized"] = True]. *)
Theorem normalize_value_spec : forall r,
  exists r', _normalize_value r = Ok r' /\
  (100 < value r -> value r' = py_round2 (100 * (1 + (value r - 100) / 900))) /\
  (value r <= 100 -> value r' = value r) /\
  dict_get "normalized" (metadata r') = Some (MBool true).
Proof.
  intros r. unfold _normalize_value.
  destruct (Qlt_le_dec 100 (value r)) as [Hlt | Hle]; eexists; split; try reflexivity.
  - simpl. split; [reflexivity | split].
    + intros Hle. exfalso. apply (Qlt_not_le _ _ Hlt Hle).
    + apply dict_get_set.
  - simpl. split; [intros Hlt; exfalso; apply (Qlt_not_le _ _ Hlt Hle) | split].
    + reflexivity.
    + apply dict_get_set.
Qed.

(** C7: for a value [v >= 0], [_categorize_value] assigns the one category
    of the partition low ([v < 30]), medium ([30 <= v < 70]), high
    ([v >= 70]), sets [metadata["category"]] to it and appends the tag
    ["category:<name>"]. *)
Theorem categorize_value_spec : forall r,
  0 <= value r ->
  exists name r',
    category_spec (value r) name /\
    (forall name', category_spec (value r) name' -> name' = name) /\
    _categorize_value r = Ok r' /\
    dict_get "category" (metadata r') = Some (MStr name) /\
    tags r' = tags r ++ [String.append "category:" name].
Proof.
  intros r _. exists (category_of (value r)).
  eexists. split; [| split; [| split; [reflexivity | split]]].
  - unfold category_spec, category_of.
    destruct (Qlt_le_dec (value r) 30) as [H1 | H1]; [left; auto |].
    destruct (Qlt_le_dec (value r) 70) as [H2 | H2]; [right; left; auto | right; right; auto].
  - intros name' Hs. unfold category_of.
    destruct (Qlt_le_dec (value r) 30) as [H1 | H1];
      [| destruct (Qlt_le_dec (value r) 70) as [H2 | H2]];
      unfold category_spec in Hs;
      destruct Hs as [[-> H] | [[-> [H H']] | [-> H]]]; try reflexivity; exfalso;
      try (apply (Qlt_not_le _ _ H1); assumption);
      try (apply (Qlt_not_le _ _ H2); assumption);
      try (apply (Qlt_not_le _ _ H); assumption);
      try (apply (Qlt_not_le _ _ H'); assumption);
      apply (Qlt_not_le (value r) 30); [assumption |];
      apply (Qle_trans _ 70); [discriminate | assumption].
  - simpl. apply dict_get_set.
  - reflexivity.
Qed.

Lemma categorize_value_spec_witness :
  exists name r',
    category_spec 42 name /\
    (forall name', category_spec 42 name' -> name' = name) /\
    _categorize_value (mkRecord "record_0001" 0 42 [] PENDING []) = Ok r' /\
    dict_get "category" (metadata r') = Some (MStr name) /\
    tags r' = [String.append "category:" name].
Proof.
  apply (categorize_value_spec (mkRecord "record_0001" 0 42 [] PENDING [])).
  simpl. discriminate.
Defined.

(** ** Statistics *)

(** C8: [get_statistics] never raises (both divisions are defined, giving
    finite rationals), at every counter state including the initial one;
    each denominator is [1] whenever its raw value is below [1] and is never
    below [1]. *)
Theorem get_statistics_total : forall st now,
  let runtime := now - start_time st in
  exists s, get_statistics st now = Some s /\
    records_per_second s = inject_Z (processed st) / rate_denominator runtime /\
    success_rate s = inject_Z (processed st) / success_denominator st /\
    1 <= rate_denominator runtime /\ 1 <= success_denominator st /\
    (runtime < 1 -> rate_denominator runtime = 1) /\
    (inject_Z (processed st + failed st) < 1 -> success_denominator st = 1).
Proof.
  intros st now runtime.
  assert (Hmax : forall x, 1 <= py_max x 1 /\ (x < 1 -> py_max x 1 = 1)).
  { intros x. unfold py_max. destruct (Qlt_le_dec x 1) as [H | H].
    - split; [apply Qle_refl | reflexivity].
    - split; [exact H | intros H'; exfalso; apply (Qlt_not_le _ _ H' H)]. }
  assert (Hdiv : forall a d, 1 <= d -> py_div a d = Some (a / d)).
  { intros a d Hd. unfold py_div. destruct (Qeq_bool d 0) eqn:E; [| reflexivity].
    apply Qeq_bool_eq in E. exfalso. unfold Qeq, Qle in *. simpl in *. lia. }
  destruct (Hmax runtime) as [Hr1 Hr2].
  destruct (Hmax (inject_Z (processed st + failed st))) as [Hs1 Hs2].
  unfold get_statistics. fold runtime.
  rewrite (Hdiv _ _ Hr1), (Hdiv _ _ Hs1).
  eexists. split; [reflexivity |]. simpl. auto 7.
Qed.

(** ** Unknown step names *)

(** C9: a step name missing from [self.processors] is passed over: alone it
    raises nothing and returns the record as it is, and inside any step list
    the pipeline runs as if it were not there. *)
Theorem unknown_step_skipped : forall config now_iso l1 s l2 r,
  ~ In s step_names ->
  run_steps config now_iso [s] r = Ok r /\
  run_steps config now_iso (l1 ++ s :: l2) r = run_steps config now_iso (l1 ++ l2) r /\
  _process_single_record (with_steps (l1 ++ s :: l2) config) now_iso r =
  _process_single_record (with_steps (l1 ++ l2) config) now_iso r.
Proof.
  intros config now_iso l1 s l2 r Hs.
  pose proof (lookup_processor_unknown config now_iso s Hs) as Hl.
  split; [| split].
  - rewrite run_steps_cons, Hl. reflexivity.
  - apply run_steps_app_skip. exact Hl.
  - unfold _process_single_record. simpl processing_steps.
    rewrite !run_steps_with_steps, run_steps_app_skip by exact Hl. reflexivity.
Qed.

Lemma unknown_step_skipped_witness :
  let r := mkRecord "record_0002" 0 500 [] PENDING ["source"; "type"]%string in
  run_steps default_config "2026-10-17T00:00:00" ["nromalize"%string] r = Ok r /\
  _process_single_record (with_steps ["validate"; "nromalize"; "enrich"]%string default_config)
    "2026-10-17T00:00:00" r =
  _process_single_record (with_steps ["validate"; "enrich"]%string default_config)
    "2026-10-17T00:00:00" r.
Proof.
  intros r.
  destruct (unknown_step_skipped default_config "2026-10-17T00:00:00"
              ["validate"%string] "nromalize"%string ["enrich"%string] r)
    as [H1 [_ H3]].
  - unfold step_names. simpl. intuition discriminate.
  - split; [exact H1 | exact H3].
Defined.

(** ** Accounting of a finished batch *)

Lemma handle_results_spec : forall results st,
  handle_results results st =
  (flat_map success_of results, map final_record results,
   mkStats (processed st + Z.of_nat (length (filter is_ok results)))
           (failed st + Z.of_nat (length (filter (fun res => negb (is_ok res)) results)))
           (start_time st)).
Proof.
  induction results as [| res rest IH]; intros st; simpl.
  - destruct st; simpl. f_equal. f_equal; lia.
  - destruct res as [r | e r]; rewrite IH; simpl; rewrite ?Nat2Z.inj_succ;
      f_equal; f_equal; lia.
Qed.

Lemma process_single_record_ok_completed : forall config now_iso r r',
  _process_single_record config now_iso r = Ok r' -> status r' = COMPLETED.
Proof.
  intros config now_iso r r'. unfold _process_single_record.
  destruct (run_steps _ _ _ _); intros H; inversion H; reflexivity.
Qed.

(** Records whose pipeline succeeds give [Ok] results, all completed. *)
Lemma all_ok_results : forall config now_iso l,
  Forall (fun r => exists r', _process_single_record config now_iso r = Ok r') l ->
  exists l', map (_process_single_record config now_iso) l = map Ok l' /\
    length l' = length l /\ Forall (fun r => status r = COMPLETED) l'.
Proof.
  intros config now_iso l H. induction H as [| r l [r' Hr] _ [l' [Hm [Hlen Hc]]]].
  - exists []. auto.
  - exists (r' :: l'). simpl. rewrite Hr, Hm, Hlen. repeat split; auto.
    constructor; [| exact Hc].
    apply (process_single_record_ok_completed config now_iso r r' Hr).
Qed.

Lemma flat_map_success_ok : forall l, flat_map success_of (map Ok l) = l.
Proof. induction l as [| r l IH]; simpl; [reflexivity | rewrite IH; reflexivity]. Qed.

Lemma map_final_ok : forall l, map final_record (map Ok l) = l.
Proof. induction l as [| r l IH]; simpl; [reflexivity | rewrite IH; reflexivity]. Qed.

Lemma filter_is_ok_ok : forall l, length (filter is_ok (map Ok l)) = length l.
Proof. induction l as [| r l IH]; simpl; [reflexivity | rewrite IH; reflexivity]. Qed.

Lemma filter_not_ok_ok : forall l,
  filter (fun res => negb (is_ok res)) (map Ok l) = [].
Proof. induction l as [| r l IH]; simpl; [reflexivity | exact IH]. Qed.

(** C2: a finished batch [pre ++ rk :: post] in which only the record [rk]
    (at index [k = length pre]) raises in its pipeline: [N-1] records are
    returned, [failed] grows by one, record [k] ends [FAILED] and is not
    returned, every returned record is [COMPLETED], and every other record
    ends [COMPLETED] and is returned. *)
Theorem process_batch_one_failure : forall config now_iso st pre rk post e rk',
  Forall (fun r => exists r', _process_single_record config now_iso r = Ok r') (pre ++ post) ->
  _process_single_record config now_iso rk = Raise e rk' ->
  let b := process_batch config now_iso st Gathered (pre ++ rk :: post) in
  length (batch_output b) = (length (pre ++ rk :: post) - 1)%nat /\
  failed (batch_stats b) = (failed st + 1)%Z /\
  (exists rk_final, nth_error (batch_records b) (length pre) = Some rk_final /\
     status rk_final = FAILED /\ ~ In rk_final (batch_output b)) /\
  (forall r, In r (batch_output b) -> status r = COMPLETED) /\
  (forall i r, i <> length pre -> nth_error (batch_records b) i = Some r ->
     status r = COMPLETED /\ In r (batch_output b)).
Proof.
  intros config now_iso st pre rk post e rk' Hok Hk b.
  apply Forall_app in Hok. destruct Hok as [Hpre Hpost].
  destruct (all_ok_results config now_iso pre Hpre) as [pre' [Hmp [Hlp Hcp]]].
  destruct (all_ok_results config now_iso post Hpost) as [post' [Hmq [Hlq Hcq]]].
  assert (Hres : map (_process_single_record config now_iso) (pre ++ rk :: post) =
                 map Ok pre' ++ Raise e rk' :: map Ok post').
  { rewrite map_app. simpl. rewrite Hmp, Hmq, Hk. reflexivity. }
  assert (Hb : b = (pre' ++ post', pre' ++ set_status FAILED rk' :: post',
                    mkStats (processed st + Z.of_nat (length pre' + length post'))
                            (failed st + 1) (start_time st))).
  { unfold b, process_batch. rewrite Hres, handle_results_spec.
    rewrite flat_map_app, map_app, !filter_app. simpl.
    rewrite !flat_map_success_ok, !map_final_ok, !filter_not_ok_ok.
    rewrite !length_app, !filter_is_ok_ok. simpl. reflexivity. }
  assert (Hcomp : forall r, In r (pre' ++ post') -> status r = COMPLETED).
  { intros r Hr. apply in_app_or in Hr. destruct Hr as [Hr | Hr].
    - rewrite Forall_forall in Hcp. auto.
    - rewrite Forall_forall in Hcq. auto. }
  rewrite Hb. unfold batch_output, batch_records, batch_stats. simpl.
  split; [| split; [| split; [| split]]].
  - rewrite !length_app. simpl. lia.
  - reflexivity.
  - exists (set_status FAILED rk'). split; [| split; [reflexivity |]].
    + rewrite nth_error_app2 by lia. rewrite Hlp, Nat.sub_diag. reflexivity.
    + intros Hin. apply Hcomp in Hin. discriminate.
  - exact Hcomp.
  - intros i r Hi Hr.
    assert (Hin : In r (pre' ++ post')).
    { destruct (Nat.lt_ge_cases i (length pre')) as [Hlt | Hge].
      - rewrite nth_error_app1 in Hr by exact Hlt.
        apply in_or_app. left. eapply nth_error_In. exact Hr.
      - rewrite nth_error_app2 in Hr by exact Hge.
        destruct (i - length pre')%nat as [| j] eqn:Ej; [lia |].
        simpl in Hr. apply in_or_app. right. eapply nth_error_In. exact Hr. }
    split; [apply Hcomp |]; exact Hin.
Qed.

Lemma process_batch_one_failure_witness :
  let b := process_batch default_config sample_now fresh_stats Gathered
             ([sample_record "record_0000" 50] ++
              sample_record "record_0001" 2000 :: [sample_record "record_0002" 80]) in
  length (batch_output b) = 2%nat /\ failed (batch_stats b) = 1%Z /\
  (exists rk_final, nth_error (batch_records b) 1 = Some rk_final /\ status rk_final = FAILED).
Proof.
  destruct (process_batch_one_failure default_config sample_now fresh_stats
              [sample_record "record_0000" 50] (sample_record "record_0001" 2000)
              [sample_record "record_0002" 80] (ValueOutOfRange 2000)
              (set_status PROCESSING (sample_record "record_0001" 2000)))
    as [H1 [H2 [[rk_final [H3 [H4 _]]] _]]].
  - repeat constructor; eexists; reflexivity.
  - reflexivity.
  - split; [exact H1 | split; [exact H2 |]]. exists rk_final. split; assumption.
Defined.

(** ** Batches of valid records *)

Lemma round_half_even_lower : forall a x,
  inject_Z a <= x -> (a <= round_half_even x)%Z.
Proof.
  intros a x Ha. unfold round_half_even.
  pose proof (Qlt_floor x) as Hf2. set (f := Qfloor x) in *.
  assert (Haf : (a <= f)%Z).
  { assert (H : (a < f + 1)%Z) by (rewrite Zlt_Qlt; apply (Qle_lt_trans _ x); assumption).
    lia. }
  destruct (Qcompare (x - inject_Z f) (1 # 2)); [destruct (Z.even f) |..]; lia.
Qed.

Lemma normalized_value_ge_100 : forall v, 100 < v -> 100 <= normalized_value v.
Proof.
  intros v Hv. unfold normalized_value, py_round2.
  assert (Hx : inject_Z 10000 <= 100 * (1 + (v - 100) / 900) * 100).
  { unfold Qdiv. change (/ 900) with (1 # 900).
    change (inject_Z 10000) with (10000 # 1). lra. }
  pose proof (round_half_even_lower 10000 _ Hx) as Hn.
  rewrite Zle_Qle in Hn.
  set (n := inject_Z (round_half_even _)) in *.
  change (inject_Z 10000) with (10000 # 1) in Hn.
  unfold Qdiv. change (/ 100) with (1 # 100). lra.
Qed.


(** [round_half_even] is the floor below one half of fractional part, and at
    most one above the floor otherwise. *)
Lemma round_half_even_cases : forall x,
  (x - inject_Z (Qfloor x) < 1 # 2 /\ round_half_even x = Qfloor x) \/
  (1 # 2 <= x - inject_Z (Qfloor x) /\ (round_half_even x <= Qfloor x + 1)%Z).
Proof.
  intros x. unfold round_half_even.
  destruct (Qcompare (x - inject_Z (Qfloor x)) (1 # 2)) eqn:C.
  - right. apply Qeq_alt in C. split; [rewrite C; apply Qle_refl |].
    destruct (Z.even _); lia.
  - left. apply Qlt_alt in C. split; [exact C | reflexivity].
  - right. apply Qgt_alt in C. split; [apply Qlt_le_weak; exact C | lia].
Qed.

(** [normalize] strictly lowers a value above 100. *)
Lemma normalized_value_lt : forall v, 100 < v -> normalized_value v < v.
Proof.
  intros v Hv. unfold normalized_value, py_round2.
  set (x := 100 * (1 + (v - 100) / 900) * 100).
  assert (Hx : x == 10000 + (v - 100) * (100 # 9)).
  { unfold x, Qdiv. change (/ 900) with (1 # 900). ring. }
  pose proof (Qfloor_le x) as Hf1.
  pose proof (Qlt_floor x) as Hf2.
  rewrite inject_Z_plus in Hf2.
  assert (Hf : (10000 <= Qfloor x)%Z).
  { assert (H : (10000 < Qfloor x + 1)%Z).
    { rewrite Zlt_Qlt, inject_Z_plus. change (inject_Z 10000) with (10000 # 1).
      apply (Qle_lt_trans _ x); [lra | exact Hf2]. }
    lia. }
  rewrite Zle_Qle in Hf. change (inject_Z 10000) with (10000 # 1) in Hf.
  unfold Qdiv. change (/ 100) with (1 # 100).
  destruct (round_half_even_cases x) as [[Hlt Heq] | [Hge Hle]].
  - rewrite Heq. set (f := inject_Z (Qfloor x)) in *. lra.
  - rewrite Zle_Qle, inject_Z_plus in Hle.
    set (n := inject_Z (round_half_even x)) in *.
    set (f := inject_Z (Qfloor x)) in *.
    change (inject_Z 1) with 1 in Hle. lra.
Qed.

(** A registered step other than [normalize] returns a record that still
    satisfies the rules, with the same value. *)
Lemma step_valid_other : forall config now_iso s p r,
  lookup_processor s (processors config now_iso) = Some p ->
  s <> "normalize"%string ->
  valid_record config r ->
  exists r', p r = Ok r' /\ valid_record config r' /\ value r' = value r.
Proof.
  intros config now_iso s p r L Hs Hv. apply lookup_processor_cases in L.
  destruct L as [[-> ->] | [[-> ->] | [[-> ->] | [-> ->]]]]; [congruence | | |].
  - eexists. split; [reflexivity |]. destruct Hv as [Hrange Htags].
    split; [split; [exact Hrange |] | reflexivity].
    intros t Ht. simpl. apply in_or_app. left. apply Htags. exact Ht.
  - exists r. split; [apply validate_record_valid_ok; exact Hv | split; [exact Hv | reflexivity]].
  - eexists. split; [reflexivity |]. split; [exact Hv | reflexivity].
Qed.

Lemma lookup_processor_normalize : forall config now_iso p,
  lookup_processor "normalize" (processors config now_iso) = Some p ->
  p = _normalize_value.
Proof.
  intros config now_iso p L. apply lookup_processor_cases in L.
  destruct L as [[_ ->] | [[H _] | [[H _] | [H _]]]]; [reflexivity | discriminate..].
Qed.

(** With a minimum of at most 100, [normalize] keeps a record within the
    rules: a value above 100 stays at least 100 and does not grow. *)
Lemma normalize_valid_low_min : forall config r,
  min_value (validation_rules config) <= 100 ->
  valid_record config r ->
  exists r', _normalize_value r = Ok r' /\ valid_record config r'.
Proof.
  intros config r Hlow [[Hmin Hmax] Htags]. unfold _normalize_value.
  destruct (Qlt_le_dec 100 (value r)) as [H | H];
    (eexists; split; [reflexivity |]); (split; [simpl | exact Htags]).
  - pose proof (normalized_value_ge_100 _ H) as H1.
    pose proof (normalized_value_lt _ H) as H2. lra.
  - split; assumption.
Qed.

(** With a minimum of at most 100, a record satisfying the rules passes any
    step list. *)
Lemma run_steps_valid_low_min : forall config now_iso steps r,
  min_value (validation_rules config) <= 100 ->
  valid_record config r ->
  exists r', run_steps config now_iso steps r = Ok r'.
Proof.
  intros config now_iso steps. induction steps as [| s rest IH]; intros r Hlow Hv.
  - eexists. reflexivity.
  - rewrite run_steps_cons.
    destruct (lookup_processor s (processors config now_iso)) as [p |] eqn:L;
      [| apply IH; assumption].
    destruct (String.eqb s "normalize") eqn:En.
    + apply String.eqb_eq in En. subst s.
      apply lookup_processor_normalize in L. subst p.
      destruct (normalize_valid_low_min config r Hlow Hv) as [r1 [-> Hv1]].
      apply IH; assumption.
    + apply String.eqb_neq in En.
      destruct (step_valid_other config now_iso s p r L En Hv) as [r1 [-> [Hv1 _]]].
      apply IH; assumption.
Qed.

(** A registered step on a record below the minimum either raises or keeps
    it below the minimum; [validate] raises. *)
Lemma step_below_min : forall config now_iso s p r,
  lookup_processor s (processors config now_iso) = Some p ->
  value r < min_value (validation_rules config) ->
  match p r with
  | Ok r' => value r' < min_value (validation_rules config) /\ s <> "validate"%string
  | Raise _ _ => True
  end.
Proof.
  intros config now_iso s p r L Hlt. apply lookup_processor_cases in L.
  destruct L as [[-> ->] | [[-> ->] | [[-> ->] | [-> ->]]]].
  - unfold _normalize_value.
    destruct (Qlt_le_dec 100 (value r)) as [H | H]; simpl;
      (split; [| discriminate]); [| exact Hlt].
    apply (Qlt_trans _ (value r)); [apply normalized_value_lt; exact H | exact Hlt].
  - simpl. split; [exact Hlt | discriminate].
  - unfold _validate_record.
    destruct (Qle_bool (min_value (validation_rules config)) (value r)) eqn:E;
      [apply Qle_bool_iff in E; exfalso; apply (Qlt_not_le _ _ Hlt E) | exact I].
  - simpl. split; [exact Hlt | discriminate].
Qed.

(** A record below the minimum raises at the next [validate] step. *)
Lemma run_steps_below_min : forall config now_iso steps r,
  value r < min_value (validation_rules config) ->
  In "validate"%string steps ->
  exists e r', run_steps config now_iso steps r = Raise e r'.
Proof.
  intros config now_iso steps. induction steps as [| s rest IH]; intros r Hlt Hin;
    [destruct Hin |].
  rewrite run_steps_cons.
  destruct (lookup_processor s (processors config now_iso)) as [p |] eqn:L.
  - pose proof (step_below_min config now_iso s p r L Hlt) as Hs.
    destruct (p r) as [r1 | e r1].
    + destruct Hs as [Hlt1 Hne]. apply IH; [exact Hlt1 |].
      destruct Hin as [Heq | Hin]; [congruence | exact Hin].
    + exists e, r1. reflexivity.
  - apply IH; [exact Hlt |].
    destruct Hin as [Heq | Hin]; [| exact Hin].
    subst s. cbv in L. discriminate.
Qed.

(** A record whose value is exactly a minimum above 100 passes every step
    up to the first [normalize], is normalized below the minimum there, and
    raises at the next [validate]. *)
Lemma run_steps_at_min : forall config now_iso steps r,
  valid_record config r ->
  value r = min_value (validation_rules config) ->
  100 < min_value (validation_rules config) ->
  In "validate"%string (after_normalize steps) ->
  exists e r', run_steps config now_iso steps r = Raise e r'.
Proof.
  intros config now_iso steps. induction steps as [| s rest IH]; intros r Hv Heq H100 Hin;
    [destruct Hin |].
  rewrite run_steps_cons. simpl in Hin.
  destruct (String.eqb s "normalize") eqn:En.
  - apply String.eqb_eq in En. subst s.
    destruct (lookup_processor "normalize" (processors config now_iso)) as [p |] eqn:L;
      [| cbv in L; discriminate].
    apply lookup_processor_normalize in L. subst p.
    unfold _normalize_value.
    destruct (Qlt_le_dec 100 (value r)) as [H | H];
      [| exfalso; rewrite Heq in H; apply (Qlt_not_le _ _ H100 H)].
    apply run_steps_below_min; [simpl | exact Hin].
    rewrite <- Heq. apply normalized_value_lt. exact H.
  - apply String.eqb_neq in En.
    destruct (lookup_processor s (processors config now_iso)) as [p |] eqn:L;
      [| apply IH; assumption].
    destruct (step_valid_other config now_iso s p r L En Hv) as [r1 [-> [Hv1 Hval]]].
    apply IH; [exact Hv1 | rewrite Hval; exact Heq | exact H100 | exact Hin].
Qed.


(** Without a [validate] step no step raises. *)
Lemma run_steps_without_validate : forall config now_iso steps r,
  ~ In "validate"%string steps ->
  exists r', run_steps config now_iso steps r = Ok r'.
Proof.
  intros config now_iso steps. induction steps as [| s rest IH]; intros r Hv.
  - eexists. reflexivity.
  - rewrite run_steps_cons.
    assert (Hrest : ~ In "validate"%string rest) by (intros H; apply Hv; right; exact H).
    destruct (lookup_processor s (processors config now_iso)) as [p |] eqn:L;
      [| apply IH; exact Hrest].
    apply lookup_processor_cases in L.
    destruct L as [[-> ->] | [[-> ->] | [[-> ->] | [-> ->]]]];
      [apply IH; exact Hrest | apply IH; exact Hrest
      | exfalso; apply Hv; left; reflexivity | apply IH; exact Hrest].
Qed.

(** A valid record passes every [validate] step that comes before the first
    [normalize]: only [normalize] changes the value, and the other steps
    only add tags. *)
Lemma run_steps_valid : forall config now_iso steps r,
  valid_record config r ->
  ~ In "validate"%string (after_normalize steps) ->
  exists r', run_steps config now_iso steps r = Ok r'.
Proof.
  intros config now_iso steps. induction steps as [| s rest IH]; intros r Hr Hv.
  - eexists. reflexivity.
  - rewrite run_steps_cons.
    destruct (lookup_processor s (processors config now_iso)) as [p |] eqn:L.
    + apply lookup_processor_cases in L.
      destruct L as [[-> ->] | [[-> ->] | [[-> ->] | [-> ->]]]]; simpl in Hv.
      * apply run_steps_without_validate. exact Hv.
      * apply IH; [| exact Hv].
        destruct Hr as [Hrange Htags]. split; [exact Hrange |].
        intros t Ht. simpl. apply in_or_app. left. apply Htags. exact Ht.
      * assert (Hok : _validate_record config r = Ok r)
          by (apply validate_record_valid_ok; exact Hr).
        rewrite Hok. apply IH; assumption.
      * apply IH; assumption.
    + apply IH; [exact Hr |].
      intros H. apply Hv. simpl.
      destruct (String.eqb s "normalize") eqn:E; [| exact H].
      apply String.eqb_eq in E. subst s. discriminate.
Qed.

(** C3 (amended): a finished batch of [N] records all satisfying the
    validation rules returns [N] records, [processed] grows by [N] and
    [failed] is unchanged, provided the minimum is at most 100 (then
    [normalize] keeps every valid value within the rules, whatever the step
    list), or no [validate] step follows a [normalize] step (the default
    order validate, normalize, categorize, enrich among them), or the rules
    admit no record at all (maximum below minimum). *)
Theorem process_batch_all_valid : forall config now_iso st records,
  (min_value (validation_rules config) <= 100 \/
   max_value (validation_rules config) < min_value (validation_rules config) \/
   ~ In "validate"%string (after_normalize (processing_steps config))) ->
  Forall (valid_record config) records ->
  let b := process_batch config now_iso st Gathered records in
  length (batch_output b) = length records /\
  processed (batch_stats b) = (processed st + Z.of_nat (length records))%Z /\
  failed (batch_stats b) = failed st.
Proof.
  intros config now_iso st records Hcase Hvalid b.
  assert (Hok : Forall (fun r => exists r', _process_single_record config now_iso r = Ok r')
                  records).
  { rewrite Forall_forall in Hvalid |- *. intros r Hin.
    assert (Hrun : exists r', run_steps config now_iso (processing_steps config)
                                (set_status PROCESSING r) = Ok r').
    { destruct Hcase as [Hlow | [Hempty | Hsteps]].
      - apply run_steps_valid_low_min; [exact Hlow | exact (Hvalid r Hin)].
      - exfalso. destruct (Hvalid r Hin) as [[Hmin Hmax] _].
        apply (Qlt_not_le _ _ Hempty). apply (Qle_trans _ (value r)); assumption.
      - apply run_steps_valid; [exact (Hvalid r Hin) | exact Hsteps]. }
    destruct Hrun as [r' Hr'].
    exists (set_status COMPLETED r'). unfold _process_single_record. rewrite Hr'.
    reflexivity. }
  destruct (all_ok_results config now_iso records Hok) as [l' [Hm [Hl _]]].
  unfold b, process_batch, batch_output, batch_stats.
  rewrite Hm, handle_results_spec. simpl.
  rewrite flat_map_success_ok, filter_is_ok_ok, filter_not_ok_ok, Hl. simpl.
  repeat split; lia.
Qed.

(** The default rules with a second [validate] after [normalize]: the
    values 1000, 550 and 100.001 all complete. *)
Lemma process_batch_all_valid_witness :
  let b := process_batch
             (with_steps ["validate"; "normalize"; "categorize"; "enrich"; "validate"]%string
                default_config)
             sample_now fresh_stats Gathered
             [sample_record "record_0000" 1000; sample_record "record_0001" 550;
              sample_record "record_0002" (100001 # 1000)] in
  length (batch_output b) = 3%nat /\ processed (batch_stats b) = 3%Z /\
  failed (batch_stats b) = 0%Z.
Proof.
  apply (process_batch_all_valid
           (with_steps ["validate"; "normalize"; "categorize"; "enrich"; "validate"]%string
              default_config)
           sample_now fresh_stats
           [sample_record "record_0000" 1000; sample_record "record_0001" 550;
            sample_record "record_0002" (100001 # 1000)]).
  - left. vm_compute. discriminate.
  - repeat (constructor; [split; [split; vm_compute; discriminate | intros t Ht; exact Ht] |]).
    constructor.
Defined.

(** The case the amendment leaves out always fails: when the minimum is
    above 100 and at most the maximum, and a [validate] step follows a
    [normalize] step, a record of value exactly the minimum carrying the
    required tags satisfies the rules, yet a finished batch made of it
    returns nothing and counts one failure. *)
Lemma process_batch_all_valid_sharp : forall config now_iso st,
  100 < min_value (validation_rules config) ->
  min_value (validation_rules config) <= max_value (validation_rules config) ->
  In "validate"%string (after_normalize (processing_steps config)) ->
  let r := mkRecord "record_0000" 0 (min_value (validation_rules config)) [] PENDING
             (required_tags (validation_rules config)) in
  valid_record config r /\
  batch_output (process_batch config now_iso st Gathered [r]) = [] /\
  failed (batch_stats (process_batch config now_iso st Gathered [r])) = (failed st + 1)%Z.
Proof.
  intros config now_iso st H100 Hle Hin r.
  assert (Hv : valid_record config r).
  { split; [split; [apply Qle_refl | exact Hle] | intros t Ht; exact Ht]. }
  split; [exact Hv |].
  destruct (run_steps_at_min config now_iso (processing_steps config)
              (set_status PROCESSING r) Hv eq_refl H100 Hin) as [e [r' Hr]].
  unfold process_batch, batch_output, batch_stats. simpl.
  unfold _process_single_record. rewrite Hr. simpl. split; reflexivity.
Qed.

(** C3 as stated fails: with the steps [normalize, validate] and a minimum
    of 150, the record of value 160 satisfies the rules, but it is
    normalized to 106.67 before [validate] runs and the batch returns
    nothing. *)
Lemma process_batch_all_valid_counterexample :
  ~ (forall config now_iso st records,
       Forall (valid_record config) records ->
       length (batch_output (process_batch config now_iso st Gathered records)) =
       length records).
Proof.
  intros H.
  specialize (H revalidating_config sample_now fresh_stats
                [sample_record "record_0000" 160]).
  assert (Hv : Forall (valid_record revalidating_config) [sample_record "record_0000" 160]).
  { constructor; [| constructor].
    split; [split; vm_compute; discriminate | intros t Ht; exact Ht]. }
  specialize (H Hv). vm_compute in H. discriminate.
Qed.

(** ** Range of [normalize] *)

Lemma round_half_even_bounds : forall a b x,
  inject_Z a <= x -> x <= inject_Z b -> (a <= round_half_even x <= b)%Z.
Proof.
  intros a b x Ha Hb. unfold round_half_even.
  pose proof (Qfloor_le x) as Hf1.
  pose proof (Qlt_floor x) as Hf2.
  set (f := Qfloor x) in *.
  rewrite inject_Z_plus in Hf2.
  assert (Haf : (a <= f)%Z).
  { assert (H : (a < f + 1)%Z).
    { rewrite Zlt_Qlt, inject_Z_plus. apply (Qle_lt_trans _ x); assumption. }
    lia. }
  assert (Hfb : (f <= b)%Z) by (rewrite Zle_Qle; apply (Qle_trans _ x); assumption).
  assert (Hup : (x - inject_Z f >= 1 # 2) -> (f + 1 <= b)%Z).
  { intros Hge. destruct (Z.eq_dec f b) as [Heq | Hne]; [| lia].
    exfalso. rewrite Heq in Hge. lra. }
  destruct (Qcompare (x - inject_Z f) (1 # 2)) eqn:C.
  - apply Qeq_alt in C.
    destruct (Z.even f); [lia |].
    assert (Hle : (f + 1 <= b)%Z) by (apply Hup; rewrite C; apply Qle_refl). lia.
  - lia.
  - apply Qgt_alt in C.
    assert (Hle : (f + 1 <= b)%Z) by (apply Hup; apply Qlt_le_weak; exact C). lia.
Qed.

(** C6 (amended): [_normalize_value] maps a value in (100, 1000] into
    [100, 200]. *)
Theorem normalize_value_range : forall r,
  100 < value r <= 1000 ->
  exists r', _normalize_value r = Ok r' /\ 100 <= value r' <= 200.
Proof.
  intros r [Hlo Hhi]. unfold _normalize_value.
  destruct (Qlt_le_dec 100 (value r)) as [H | H];
    [| exfalso; apply (Qlt_not_le _ _ Hlo H)].
  eexists. split; [reflexivity |]. simpl.
  unfold normalized_value, py_round2.
  set (x := 100 * (1 + (value r - 100) / 900) * 100).
  assert (Hx : inject_Z 10000 <= x <= inject_Z 20000).
  { unfold x, Qdiv. change (/ 900) with (1 # 900).
    change (inject_Z 10000) with (10000 # 1). change (inject_Z 20000) with (20000 # 1).
    split; lra. }
  destruct Hx as [Hx1 Hx2].
  destruct (round_half_even_bounds 10000 20000 x Hx1 Hx2) as [Hn1 Hn2].
  rewrite Zle_Qle in Hn1, Hn2.
  set (n := inject_Z (round_half_even x)) in *.
  change (inject_Z 10000) with (10000 # 1) in Hn1.
  change (inject_Z 20000) with (20000 # 1) in Hn2.
  unfold Qdiv. change (/ 100) with (1 # 100).
  split; lra.
Qed.

Lemma normalize_value_range_witness :
  exists r', _normalize_value (sample_record "record_0000" 1000) = Ok r' /\
  100 <= value r' <= 200.
Proof.
  apply normalize_value_range. split; vm_compute; first [reflexivity | discriminate].
Defined.

(** C6 as stated fails: the value 100.001 lies in (100, 1000] and is
    normalized to 100.00, which is not above 100. *)
Lemma normalize_value_range_counterexample :
  ~ (forall r r', 100 < value r <= 1000 -> _normalize_value r = Ok r' ->
       100 < value r' <= 200).
Proof.
  intros H.
  destruct (H (sample_record "record_0000" (100001 # 1000))
              (set_metadata
                 (dict_set "normalized" (MBool true)
                    [("source_id"%string, MStr "sensor_0")])
                 (set_value (normalized_value (100001 # 1000))
                    (sample_record "record_0000" (100001 # 1000)))))
    as [Hgt _].
  - split; vm_compute; first [reflexivity | discriminate].
  - reflexivity.
  - vm_compute in Hgt. discriminate.
Qed.

(** ** Record construction *)

(** [DataRecord(...)] only builds records with a non-negative value. *)
Lemma DataRecord_new_nonneg : forall now rid ts v md st tgs r,
  DataRecord_new now rid ts v md st tgs = Some r -> 0 <= value r.
Proof.
  intros now rid ts v md st tgs r. unfold DataRecord_new.
  destruct (Qlt_le_dec v 0) as [H | H]; [discriminate |].
  intros Hr. inversion Hr. simpl. exact H.
Qed.

(** ** Invariants of the steps *)

Lemma dict_get_set_other : forall k k' v d,
  k <> k' -> dict_get k (dict_set k' v d) = dict_get k d.
Proof.
  intros k k' v d Hne. induction d as [| [k0 v0] t IH]; simpl.
  - destruct (String.eqb k k') eqn:E; [apply String.eqb_eq in E; congruence | reflexivity].
  - destruct (String.eqb k' k0) eqn:E0; simpl.
    + apply String.eqb_eq in E0. subst k0.
      destruct (String.eqb k k') eqn:E; [apply String.eqb_eq in E; congruence | reflexivity].
    + destruct (String.eqb k k0); [reflexivity | exact IH].
Qed.

Lemma not_in_pipeline_keys : forall k k',
  In k' pipeline_keys -> ~ In k pipeline_keys -> k <> k'.
Proof. intros k k' H1 H2 ->. contradiction. Qed.

Lemma pipeline_preserved_refl : forall r, pipeline_preserved r r.
Proof.
  intros r. unfold pipeline_preserved. repeat split; auto.
  exists []. rewrite app_nil_r. reflexivity.
Qed.

Lemma pipeline_preserved_trans : forall r1 r2 r3,
  pipeline_preserved r1 r2 -> pipeline_preserved r2 r3 -> pipeline_preserved r1 r3.
Proof.
  intros r1 r2 r3 [I1 [T1 [S1 [[e1 G1] [M1 V1]]]]] [I2 [T2 [S2 [[e2 G2] [M2 V2]]]]].
  unfold pipeline_preserved. repeat split; try congruence.
  - exists (e1 ++ e2). rewrite G2, G1, app_assoc. reflexivity.
  - intros k Hk. rewrite M2, M1 by exact Hk. reflexivity.
  - auto.
Qed.

Lemma step_preserved : forall config now_iso s p r,
  lookup_processor s (processors config now_iso) = Some p ->
  pipeline_preserved r (result_record (p r)).
Proof.
  intros config now_iso s p r L. apply lookup_processor_cases in L.
  destruct L as [[_ ->] | [[_ ->] | [[_ ->] | [_ ->]]]].
  - unfold _normalize_value.
    destruct (Qlt_le_dec 100 (value r)) as [H | H]; simpl;
      unfold pipeline_preserved; simpl; repeat split; auto;
      try (exists []; rewrite app_nil_r; reflexivity);
      try (intros k Hk; apply dict_get_set_other, (not_in_pipeline_keys k); [simpl; auto | exact Hk]).
    intros _. apply (Qle_trans _ 100); [discriminate | apply normalized_value_ge_100; exact H].
  - unfold pipeline_preserved; simpl. repeat split; auto.
    + exists [String.append "category:" (category_of (value r))]. reflexivity.
    + intros k Hk. apply dict_get_set_other, (not_in_pipeline_keys k); [simpl; auto | exact Hk].
  - unfold _validate_record.
    destruct (negb _); [| destruct (negb _)]; apply pipeline_preserved_refl.
  - unfold pipeline_preserved; simpl. repeat split; auto.
    + exists []. rewrite app_nil_r. reflexivity.
    + intros k Hk.
      rewrite !dict_get_set_other by (apply (not_in_pipeline_keys k); [simpl; auto 6 | exact Hk]).
      reflexivity.
Qed.

Lemma run_steps_preserved : forall config now_iso steps r,
  pipeline_preserved r (result_record (run_steps config now_iso steps r)).
Proof.
  intros config now_iso steps. induction steps as [| s rest IH]; intros r.
  - apply pipeline_preserved_refl.
  - rewrite run_steps_cons.
    destruct (lookup_processor s (processors config now_iso)) as [p |] eqn:L; [| apply IH].
    pose proof (step_preserved config now_iso s p r L) as Hp.
    destruct (p r) as [r1 | e r1]; simpl in Hp; [| exact Hp].
    apply (pipeline_preserved_trans _ r1); [exact Hp | apply IH].
Qed.

(** X2: whatever the steps, whether the pipeline returns or raises, the record
    it leaves keeps its id, timestamp and status, keeps its tags as a prefix
    (steps only append), keeps every metadata key other than those the steps
    write, and keeps a non-negative value non-negative. *)
Theorem run_steps_keeps_record : forall config now_iso steps r,
  pipeline_preserved r (result_record (run_steps config now_iso steps r)).
Proof. intros. apply run_steps_preserved. Qed.

Lemma process_single_record_status_id : forall config now_iso r,
  id (result_record (_process_single_record config now_iso r)) = id r /\
  match _process_single_record config now_iso r with
  | Ok r' => status r' = COMPLETED
  | Raise _ r' => status r' = PROCESSING
  end.
Proof.
  intros config now_iso r. unfold _process_single_record.
  pose proof (run_steps_preserved config now_iso (processing_steps config)
                (set_status PROCESSING r)) as [Hi [_ [Hs _]]].
  destruct (run_steps _ _ _ _); simpl in *; split; auto.
Qed.

(** X3: [_process_single_record] leaves the record [COMPLETED] when it
    returns and [PROCESSING] when a step raised (only [process_batch] then
    marks it [FAILED]). *)
Theorem process_single_record_status : forall config now_iso r,
  match _process_single_record config now_iso r with
  | Ok r' => status r' = COMPLETED
  | Raise _ r' => status r' = PROCESSING
  end.
Proof. intros. apply process_single_record_status_id. Qed.

(** X1: [__post_init__] rejects a negative value only when a record is
    built; the steps then assign [record.value] without checking it again.
    Still, for a batch of records built by [DataRecord(...)], under any
    configuration, every record of a finished batch, returned or marked
    failed, keeps a non-negative value. *)
Theorem constructed_records_stay_nonnegative : forall config now_iso st now records,
  Forall (fun r => exists rid ts v md s tgs, DataRecord_new now rid ts v md s tgs = Some r)
    records ->
  let b := process_batch config now_iso st Gathered records in
  Forall (fun r => 0 <= value r) (batch_records b) /\
  Forall (fun r => 0 <= value r) (batch_output b).
Proof.
  intros config now_iso st now records Hnew b.
  assert (H0 : forall r, In r records -> 0 <= value r).
  { intros r Hin. rewrite Forall_forall in Hnew.
    destruct (Hnew r Hin) as [rid [ts [v [md [s [tgs Hr]]]]]].
    exact (DataRecord_new_nonneg _ _ _ _ _ _ _ _ Hr). }
  assert (Hres : forall r, 0 <= value r ->
            0 <= value (result_record (_process_single_record config now_iso r))).
  { intros r Hr. unfold _process_single_record.
    pose proof (run_steps_preserved config now_iso (processing_steps config)
                  (set_status PROCESSING r)) as [_ [_ [_ [_ [_ Hv]]]]].
    destruct (run_steps _ _ _ _); simpl in *; apply Hv; exact Hr. }
  unfold b, process_batch, batch_records, batch_output. rewrite handle_results_spec.
  simpl. split; rewrite Forall_forall; intros x Hx.
  - apply in_map_iff in Hx. destruct Hx as [res [Hx Hin]]. subst x.
    apply in_map_iff in Hin. destruct Hin as [r [Hres_eq Hin]].
    pose proof (Hres r (H0 r Hin)) as Hv. rewrite Hres_eq in Hv.
    destruct res; exact Hv.
  - apply in_flat_map in Hx. destruct Hx as [res [Hin Hx]].
    apply in_map_iff in Hin. destruct Hin as [r [Hres_eq Hin]].
    pose proof (Hres r (H0 r Hin)) as Hv. rewrite Hres_eq in Hv.
    destruct res as [r' | e r']; simpl in Hx; [| destruct Hx].
    destruct Hx as [Hx | []]. subst x. exact Hv.
Qed.

Lemma constructed_records_stay_nonnegative_witness :
  let b := process_batch default_config sample_now fresh_stats Gathered
             [sample_record "record_0000" 550; sample_record "record_0001" 2000] in
  Forall (fun r => 0 <= value r) (batch_records b) /\
  Forall (fun r => 0 <= value r) (batch_output b).
Proof.
  apply (constructed_records_stay_nonnegative default_config sample_now fresh_stats 0%Z
           [sample_record "record_0000" 550; sample_record "record_0001" 2000]).
  constructor; [| constructor; [| constructor]].
  - exists "record_0000"%string, (Some 0%Z), 550, [("source_id"%string, MStr "sensor_0")],
      PENDING, ["source"; "type"]%string. vm_compute. reflexivity.
  - exists "record_0001"%string, (Some 0%Z), 2000, [("source_id"%string, MStr "sensor_0")],
      PENDING, ["source"; "type"]%string. vm_compute. reflexivity.
Defined.

(** X4: [_enrich_metadata] stores [pipeline_version = "2.1.0"], the current
    time, and a [quality_score] of [min(100, value * 1.2)]: never above 100,
    non-negative for a non-negative value, exactly [value * 1.2] when that is
    below 100 and exactly 100 otherwise; the value, tags and status are
    untouched. *)
Theorem enrich_metadata_spec : forall now_iso r,
  exists r' q, _enrich_metadata now_iso r = Ok r' /\
    value r' = value r /\ tags r' = tags r /\ status r' = status r /\
    dict_get "pipeline_version" (metadata r') = Some (MStr "2.1.0") /\
    dict_get "processing_time" (metadata r') = Some (MStr now_iso) /\
    dict_get "quality_score" (metadata r') = Some (MNum q) /\
    q <= 100 /\ (0 <= value r -> 0 <= q) /\
    (value r * (6 # 5) < 100 -> q = value r * (6 # 5)) /\
    (100 <= value r * (6 # 5) -> q = 100).
Proof.
  intros now_iso r. unfold _enrich_metadata.
  eexists. exists (py_min 100 (value r * (6 # 5))).
  split; [reflexivity |]. simpl.
  split; [reflexivity | split; [reflexivity | split; [reflexivity |]]].
  split; [rewrite dict_get_set_other by discriminate; apply dict_get_set |].
  split; [rewrite !dict_get_set_other by discriminate; apply dict_get_set |].
  split; [apply dict_get_set |].
  unfold py_min. destruct (Qlt_le_dec (value r * (6 # 5)) 100) as [H | H].
  - split; [apply Qlt_le_weak; exact H | split; [intros H0; lra | split; [reflexivity |]]].
    intros H'. exfalso. apply (Qlt_not_le _ _ H H').
  - split; [apply Qle_refl | split; [intros _; discriminate | split; [| reflexivity]]].
    intros H'. exfalso. apply (Qlt_not_le _ _ H' H).
Qed.

(** X5: with the default configuration, a record that passes validation and
    has a value above 100 completes with a value in [100, 200], the
    category "high" and a quality score of 100: categorize and enrich see
    the normalized value. *)
Theorem default_pipeline_large_value : forall now_iso r,
  valid_record default_config r -> 100 < value r ->
  exists r', _process_single_record default_config now_iso r = Ok r' /\
    100 <= value r' <= 200 /\
    dict_get "category" (metadata r') = Some (MStr "high") /\
    dict_get "quality_score" (metadata r') = Some (MNum 100).
Proof.
  intros now_iso r Hvalid Hlo.
  assert (Hhi : value r <= 1000) by (destruct Hvalid as [[_ H] _]; exact H).
  unfold _process_single_record. simpl processing_steps.
  rewrite run_steps_cons.
  change (lookup_processor "validate" (processors default_config now_iso))
    with (Some (_validate_record default_config)). cbv iota beta.
  rewrite (validate_record_valid_ok default_config (set_status PROCESSING r) Hvalid).
  rewrite run_steps_cons.
  change (lookup_processor "normalize" (processors default_config now_iso))
    with (Some _normalize_value). cbv iota beta.
  unfold _normalize_value. simpl value.
  destruct (Qlt_le_dec 100 (value r)) as [H | H]; [| exfalso; apply (Qlt_not_le _ _ Hlo H)].
  set (v' := normalized_value (value r)).
  assert (Hv' : 100 <= v' <= 200).
  { unfold v', normalized_value, py_round2.
    set (x := 100 * (1 + (value r - 100) / 900) * 100).
    assert (Hx : inject_Z 10000 <= x <= inject_Z 20000).
    { unfold x, Qdiv. change (/ 900) with (1 # 900).
      change (inject_Z 10000) with (10000 # 1). change (inject_Z 20000) with (20000 # 1).
      split; lra. }
    destruct Hx as [Hx1 Hx2].
    destruct (round_half_even_bounds 10000 20000 x Hx1 Hx2) as [Hn1 Hn2].
    rewrite Zle_Qle in Hn1, Hn2.
    set (n := inject_Z (round_half_even x)) in *.
    change (inject_Z 10000) with (10000 # 1) in Hn1.
    change (inject_Z 20000) with (20000 # 1) in Hn2.
    unfold Qdiv. change (/ 100) with (1 # 100). split; lra. }
  unfold _categorize_value, _enrich_metadata. simpl.
  eexists. split; [reflexivity |]. simpl.
  split; [exact Hv' | split].
  - rewrite !dict_get_set_other by discriminate. rewrite dict_get_set.
    unfold category_of.
    destruct (Qlt_le_dec v' 30) as [H30 | _]; [exfalso; lra |].
    destruct (Qlt_le_dec v' 70) as [H70 | _]; [exfalso; lra | reflexivity].
  - rewrite dict_get_set. unfold py_min.
    destruct (Qlt_le_dec (v' * (6 # 5)) 100) as [Hq | _]; [exfalso; lra | reflexivity].
Qed.

Lemma default_pipeline_large_value_witness :
  exists r', _process_single_record default_config sample_now
               (sample_record "record_0003" 550) = Ok r' /\
    100 <= value r' <= 200 /\
    dict_get "category" (metadata r') = Some (MStr "high") /\
    dict_get "quality_score" (metadata r') = Some (MNum 100).
Proof.
  apply default_pipeline_large_value.
  - split; [split; vm_compute; discriminate | intros t Ht; exact Ht].
  - vm_compute. reflexivity.
Defined.

(** ** Invariants of a batch *)

Lemma length_success_of : forall results,
  length (flat_map success_of results) = length (filter is_ok results).
Proof.
  induction results as [| [r | e r] rest IH]; simpl; [reflexivity | rewrite IH; reflexivity | exact IH].
Qed.

Lemma length_filter_split : forall results,
  (length (filter is_ok results) + length (filter (fun res => negb (is_ok res)) results))%nat =
  length results.
Proof.
  induction results as [| [r | e r] rest IH]; simpl; lia.
Qed.

(** X6: after a batch whose gather finished, the batch records, one per input
    record and with the same ids in the same order, are each [COMPLETED] or
    [FAILED]: none is left [PENDING] or [PROCESSING]. *)
Theorem process_batch_records_settled : forall config now_iso st records,
  let recs := batch_records (process_batch config now_iso st Gathered records) in
  map id recs = map id records /\
  Forall (fun r => status r = COMPLETED \/ status r = FAILED) recs.
Proof.
  intros config now_iso st records recs.
  unfold recs, batch_records, process_batch. rewrite handle_results_spec. simpl.
  rewrite !map_map. split.
  - apply map_ext. intros r.
    destruct (process_single_record_status_id config now_iso r) as [Hi _].
    destruct (_process_single_record config now_iso r); exact Hi.
  - apply Forall_forall. intros r' Hin. apply in_map_iff in Hin.
    destruct Hin as [r [<- _]].
    destruct (process_single_record_status_id config now_iso r) as [_ Hs].
    destruct (_process_single_record config now_iso r); simpl; auto.
Qed.

Lemma process_batch_counters_aux : forall config now_iso st outcome records,
  let b := process_batch config now_iso st outcome records in
  processed (batch_stats b) = (processed st + Z.of_nat (length (batch_output b)))%Z /\
  (processed (batch_stats b) + failed (batch_stats b) =
   processed st + failed st +
   match outcome with Gathered => Z.of_nat (length records) | TimedOut _ => 0 end)%Z /\
  (failed st <= failed (batch_stats b))%Z.
Proof.
  intros config now_iso st outcome records b. unfold b.
  destruct outcome as [| abandoned].
  - unfold process_batch, batch_stats, batch_output. rewrite handle_results_spec. simpl.
    rewrite length_success_of.
    pose proof (length_filter_split (map (_process_single_record config now_iso) records)) as H.
    rewrite length_map in H. repeat split; lia.
  - simpl. unfold batch_stats. simpl. repeat split; lia.
Qed.

(** X7: every call of [process_batch] increases [processed] by the number of
    records it returns and never decreases [failed]; a finished batch adds
    its number of records to [processed + failed], a timed-out one adds
    nothing. *)
Theorem process_batch_counters : forall config now_iso st outcome records,
  let b := process_batch config now_iso st outcome records in
  processed (batch_stats b) = (processed st + Z.of_nat (length (batch_output b)))%Z /\
  (processed (batch_stats b) + failed (batch_stats b) =
   processed st + failed st +
   match outcome with Gathered => Z.of_nat (length records) | TimedOut _ => 0 end)%Z /\
  (failed st <= failed (batch_stats b))%Z.
Proof. intros. apply process_batch_counters_aux. Qed.

(** X8: over the batch loop of [main], whatever batches time out, the
    [processed] counter grows by exactly the number of records collected in
    [all_results], and [processed + failed] grows by at most the number of
    records in the batches. *)
Theorem run_batches_counters : forall config now_iso outcomes batches k st,
  let '(all_results, st') := run_batches config now_iso outcomes k st batches in
  processed st' = (processed st + Z.of_nat (length all_results))%Z /\
  (processed st' + failed st' <=
   processed st + failed st + Z.of_nat (length (concat batches)))%Z /\
  (failed st <= failed st')%Z.
Proof.
  intros config now_iso outcomes batches.
  induction batches as [| batch rest IH]; intros k st; cbn [run_batches concat].
  - simpl. repeat split; lia.
  - destruct (process_batch_counters_aux config now_iso st (outcomes k) batch) as [H1 [H2 H3]].
    assert (Hm : (match outcomes k with Gathered => Z.of_nat (length batch)
                  | TimedOut _ => 0 end <= Z.of_nat (length batch))%Z)
      by (destruct (outcomes k); lia).
    set (b := process_batch config now_iso st (outcomes k) batch) in *.
    specialize (IH (S k) (batch_stats b)).
    destruct (run_batches config now_iso outcomes (S k) (batch_stats b) rest)
      as [all_results st'].
    destruct IH as [I1 [I2 I3]].
    rewrite !length_app. repeat split; lia.
Qed.

(** ** Batching in [main] *)

Lemma firstn_plus : forall {A} a b (l : list A),
  firstn (a + b) l = firstn a l ++ firstn b (skipn a l).
Proof.
  intros A a. induction a as [| a IH]; intros b l; [reflexivity |].
  destruct l as [| x l]; simpl.
  - destruct b; reflexivity.
  - rewrite IH. reflexivity.
Qed.

Lemma chunks_concat : forall {A} (B m : nat) (l : list A),
  concat (map (fun k => firstn B (skipn (k * B) l)) (seq 0 m)) = firstn (m * B) l.
Proof.
  intros A B m l. induction m as [| m IH]; [reflexivity |].
  rewrite seq_S, map_app, concat_app, IH. cbn [map concat].
  rewrite app_nil_r, Nat.add_0_l.
  replace (S m * B)%nat with (m * B + B)%nat by lia.
  rewrite firstn_plus. reflexivity.
Qed.

Lemma py_slice_chunk : forall {A} (l : list A) bs k,
  (0 < bs)%Z ->
  py_slice l (0 + Z.of_nat k * bs)%Z (0 + Z.of_nat k * bs + bs)%Z =
  firstn (Z.to_nat bs) (skipn (k * Z.to_nat bs) l).
Proof.
  intros A l bs k Hbs. unfold py_slice. rewrite Z.add_0_l.
  rewrite Z2Nat.inj_add by lia. rewrite Z2Nat.inj_mul by lia. rewrite Nat2Z.id.
  f_equal. lia.
Qed.

Lemma main_batches_positive : forall bs (records : list DataRecord),
  (0 < bs)%Z ->
  main_batches bs records =
  Some (map (fun k => firstn (Z.to_nat bs) (skipn (k * Z.to_nat bs) records))
          (seq 0 (Z.to_nat ((Z.of_nat (length records) - 0 + bs - 1) / bs)))).
Proof.
  intros bs records Hbs. unfold main_batches, py_range.
  replace (Z.eqb bs 0) with false by (symmetry; apply Z.eqb_neq; lia).
  replace (Z.ltb 0 bs) with true by (symmetry; apply Z.ltb_lt; lia).
  f_equal. rewrite map_map. apply map_ext. intros k. apply py_slice_chunk. exact Hbs.
Qed.

(** X9: for a positive [batch_size], the batches of [main] split the records
    in order: their concatenation is the record list, and each batch holds
    between 1 and [batch_size] records. *)
Theorem main_batches_partition : forall batch_size records,
  (0 < batch_size)%Z ->
  exists batches, main_batches batch_size records = Some batches /\
    concat batches = records /\
    Forall (fun b => (0 < length b <= Z.to_nat batch_size)%nat) batches.
Proof.
  intros bs records Hbs. rewrite (main_batches_positive bs records Hbs).
  eexists. split; [reflexivity |].
  set (n := length records).
  set (q := ((Z.of_nat n - 0 + bs - 1) / bs)%Z).
  assert (Hq1 : (bs * q <= Z.of_nat n - 0 + bs - 1)%Z) by (apply Z.mul_div_le; lia).
  assert (Hq2 : (Z.of_nat n <= bs * q)%Z).
  { pose proof (Z.div_mod (Z.of_nat n - 0 + bs - 1) bs) as Hd.
    pose proof (Z.mod_pos_bound (Z.of_nat n - 0 + bs - 1) bs) as Hb.
    fold q in Hd. lia. }
  assert (Hq0 : (0 <= q)%Z) by (apply Z.div_pos; lia).
  assert (HB : Z.of_nat (Z.to_nat bs) = bs) by (apply Z2Nat.id; lia).
  assert (Hm : Z.of_nat (Z.to_nat q) = q) by (apply Z2Nat.id; exact Hq0).
  split.
  - rewrite chunks_concat. apply firstn_all2.
    apply Nat2Z.inj_le. rewrite Nat2Z.inj_mul, Hm, HB. fold n. lia.
  - apply Forall_forall. intros b Hb. apply in_map_iff in Hb.
    destruct Hb as [k [<- Hk]]. apply in_seq in Hk.
    assert (Hlt : (k * Z.to_nat bs < n)%nat).
    { apply Nat2Z.inj_lt. rewrite Nat2Z.inj_mul, HB.
      assert (Hk' : (Z.of_nat k < q)%Z) by (rewrite <- Hm; lia). nia. }
    rewrite length_firstn, length_skipn. fold n.
    assert (HB0 : (0 < Z.to_nat bs)%nat) by lia.
    lia.
Qed.

Lemma main_batches_partition_witness :
  exists batches,
    main_batches 2 [sample_record "a" 1; sample_record "b" 2; sample_record "c" 3] =
      Some batches /\
    concat batches = [sample_record "a" 1; sample_record "b" 2; sample_record "c" 3] /\
    Forall (fun b => (0 < length b <= Z.to_nat 2)%nat) batches.
Proof. apply main_batches_partition. lia. Defined.

(** X10: a [batch_size] of 0 makes [range] raise [ValueError] in [main], and
    a negative one gives no batch at all, so nothing is processed. *)
Theorem main_batches_nonpositive : forall records,
  main_batches 0 records = None /\
  (forall bs, (bs < 0)%Z -> main_batches bs records = Some []).
Proof.
  intros records. split; [reflexivity |].
  intros bs Hbs. unfold main_batches, py_range.
  replace (Z.eqb bs 0) with false by (symmetry; apply Z.eqb_neq; lia).
  replace (Z.ltb 0 bs) with false by (symmetry; apply Z.ltb_ge; lia).
  assert (H : ((0 - Z.of_nat (length records) - bs - 1) / - bs <= 0)%Z).
  { assert (H1 : ((0 - Z.of_nat (length records) - bs - 1) / - bs < 1)%Z)
      by (apply Z.div_lt_upper_bound; lia).
    lia. }
  destruct ((0 - Z.of_nat (length records) - bs - 1) / - bs)%Z eqn:E; try lia;
    reflexivity.
Qed.

Lemma main_batches_nonpositive_witness :
  main_batches 0 [sample_record "a" 1] = None /\
  main_batches (-5) [sample_record "a" 1] = Some [].
Proof.
  destruct (main_batches_nonpositive [sample_record "a" 1]) as [H0 Hneg].
  split; [exact H0 | apply Hneg; lia].
Defined.

(** ** Rates of [get_statistics] *)

Lemma py_max_one : forall x, 1 <= py_max x 1 /\ (1 <= x -> py_max x 1 = x).
Proof.
  intros x. unfold py_max. destruct (Qlt_le_dec x 1) as [H | H].
  - split; [apply Qle_refl | intros H'; exfalso; apply (Qlt_not_le _ _ H H')].
  - split; [exact H | reflexivity].
Qed.

Lemma py_div_ge_one : forall a d, 1 <= d -> py_div a d = Some (a / d).
Proof.
  intros a d Hd. unfold py_div. destruct (Qeq_bool d 0) eqn:E; [| reflexivity].
  apply Qeq_bool_eq in E. exfalso. unfold Qeq, Qle in *. simpl in *. lia.
Qed.

(** X11: with non-negative counters, [get_statistics] gives a success rate
    between 0 and 1, equal to 1 when some record was processed and none
    failed, and a non-negative records-per-second rate. *)
Theorem get_statistics_rates_bounded : forall st now,
  (0 <= processed st)%Z -> (0 <= failed st)%Z ->
  exists s, get_statistics st now = Some s /\
    0 <= success_rate s <= 1 /\ 0 <= records_per_second s /\
    ((0 < processed st)%Z -> failed st = 0%Z -> success_rate s == 1).
Proof.
  intros st now Hp Hf.
  destruct (py_max_one (now - start_time st)) as [Hr _].
  destruct (py_max_one (inject_Z (processed st + failed st))) as [Hs Hs'].
  unfold get_statistics, rate_denominator.
  rewrite (py_div_ge_one _ _ Hr). unfold success_denominator.
  rewrite (py_div_ge_one _ _ Hs).
  eexists. split; [reflexivity |]. simpl.
  assert (HpQ : 0 <= inject_Z (processed st))
    by (change 0 with (inject_Z 0); rewrite <- Zle_Qle; exact Hp).
  assert (HfQ : 0 <= inject_Z (failed st))
    by (change 0 with (inject_Z 0); rewrite <- Zle_Qle; exact Hf).
  split; [split |].
  - apply Qle_shift_div_l; [lra | lra].
  - apply Qle_shift_div_r; [lra |].
    destruct (Qlt_le_dec (inject_Z (processed st + failed st)) 1) as [Hlt | Hge].
    + assert (H0 : processed st = 0%Z).
      { rewrite inject_Z_plus in Hlt. change 1 with (inject_Z 1) in Hlt.
        assert (Hsum : (processed st + failed st < 1)%Z)
          by (rewrite Zlt_Qlt, inject_Z_plus; exact Hlt).
        lia. }
      assert (Hz : inject_Z (processed st) == 0) by (rewrite H0; reflexivity). lra.
    + rewrite (Hs' Hge), inject_Z_plus. lra.
  - split; [apply Qle_shift_div_l; lra |].
    intros Hpos Hf0.
    assert (Hge : 1 <= inject_Z (processed st + failed st)).
    { change 1 with (inject_Z 1). rewrite <- Zle_Qle. lia. }
    rewrite (Hs' Hge), Hf0, Z.add_0_r.
    unfold Qdiv. apply Qmult_inv_r.
    intros Heq. unfold Qeq in Heq. simpl in Heq. lia.
Qed.

Lemma get_statistics_rates_bounded_witness :
  exists s, get_statistics (mkStats 40 10 0) 25 = Some s /\
    0 <= success_rate s <= 1 /\ 0 <= records_per_second s /\
    ((0 < 40)%Z -> 10%Z = 0%Z -> success_rate s == 1).
Proof. apply (get_statistics_rates_bounded (mkStats 40 10 0) 25); simpl; lia. Defined.

(** ** Configuration loading *)

Lemma jdict_get_set : forall k k' v d,
  jdict_get k (jdict_set k' v d) = if String.eqb k k' then Some v else jdict_get k d.
Proof.
  intros k k' v d. induction d as [| [k0 v0] t IH]; simpl.
  - reflexivity.
  - destruct (String.eqb k' k0) eqn:E0; simpl.
    + apply String.eqb_eq in E0. subst k0. destruct (String.eqb k k'); reflexivity.
    + destruct (String.eqb k k0) eqn:E; [| exact IH].
      apply String.eqb_eq in E. subst k0.
      destruct (String.eqb k k') eqn:E'; [| reflexivity].
      apply String.eqb_eq in E'. subst k'. rewrite String.eqb_refl in E0. discriminate.
Qed.

Lemma jdict_get_update : forall u d k,
  jdict_get k (jdict_update d u) =
  match jdict_get k (rev u) with Some v => Some v | None => jdict_get k d end.
Proof.
  intros u. induction u as [| [k' v] u IH] using rev_ind; intros d k.
  - reflexivity.
  - unfold jdict_update in *. rewrite fold_left_app. simpl.
    rewrite jdict_get_set, rev_app_distr. simpl.
    destruct (String.eqb k k'); [reflexivity | apply IH].
Qed.

(** X12: [_load_config] merges a configuration file's object into the
    defaults key by key: a top-level key of the file (its last occurrence)
    replaces the default value as a whole, for [validation_rules] too, and
    every other key keeps its default; without a path, with a missing path,
    or when the file cannot be read or parsed, the defaults are used
    unchanged. *)
Theorem load_config_merge : forall src k,
  jdict_get k (_load_config src) =
  match src with
  | ParsedObject user_config =>
      match jdict_get k (rev user_config) with
      | Some v => Some v
      | None => jdict_get k default_config_json
      end
  | _ => jdict_get k default_config_json
  end.
Proof.
  intros src k. destruct src as [| | | u]; try reflexivity.
  apply jdict_get_update.
Qed.

(** ** Export *)

Lemma nth_error_to_dict : forall isoformat now records i r,
  nth_error records i = Some r ->
  nth_error (map (to_dict isoformat now) records) i = Some (to_dict isoformat now r).
Proof. intros. rewrite nth_error_map, H. reflexivity. Qed.

Lemma get_statistics_some : forall st now, get_statistics st now <> None.
Proof.
  intros st now. unfold get_statistics.
  destruct (py_max_one (now - start_time st)) as [Hr _].
  destruct (py_max_one (inject_Z (processed st + failed st))) as [Hs _].
  unfold rate_denominator, success_denominator.
  rewrite (py_div_ge_one _ _ Hr), (py_div_ge_one _ _ Hs). discriminate.
Qed.

(** X13: [export_results] writes nothing unless the format, lower-cased, is
    "json"; for json it writes a document whose [record_count] is the
    number of records written, one per processor record and in order, each
    carrying the record's id and its status as the enum's string value, and
    whose statistics are present. *)
Theorem export_results_spec : forall isoformat now now_iso st records format,
  (ascii_lower format <> "json"%string ->
   export_results isoformat now now_iso st records format = None) /\
  (ascii_lower format = "json"%string ->
   exists doc, export_results isoformat now now_iso st records format = Some doc /\
     record_count doc = Z.of_nat (length (exported_records doc)) /\
     length (exported_records doc) = length records /\
     statistics doc <> None /\
     (forall i r, nth_error records i = Some r ->
        exists d, nth_error (exported_records doc) i = Some d /\
          jdict_get "id" d = Some (JStr (id r)) /\
          jdict_get "status" d = Some (JStr (status_value (status r))))).
Proof.
  intros isoformat now now_iso st records format. unfold export_results. split.
  - intros H. destruct (String.eqb (ascii_lower format) "json") eqn:E; [| reflexivity].
    apply String.eqb_eq in E. contradiction.
  - intros H. rewrite H, String.eqb_refl. eexists. split; [reflexivity |]. simpl.
    rewrite length_map. split; [reflexivity | split; [reflexivity | split]].
    + apply get_statistics_some.
    + intros i r Hr. eexists. split; [apply nth_error_to_dict; exact Hr |].
      split; reflexivity.
Qed.

Lemma export_results_spec_witness :
  let recs := [sample_record "record_0000" 50] in
  export_results (fun _ => "2026-10-17T00:00:00"%string) 0 sample_now fresh_stats recs "csv" = None /\
  exists doc, export_results (fun _ => "2026-10-17T00:00:00"%string) 0 sample_now fresh_stats
                recs "JSON" = Some doc /\
    record_count doc = 1%Z.
Proof.
  intros recs.
  destruct (export_results_spec (fun _ => "2026-10-17T00:00:00"%string) 0 sample_now
              fresh_stats recs "csv") as [Hcsv _].
  destruct (export_results_spec (fun _ => "2026-10-17T00:00:00"%string) 0 sample_now
              fresh_stats recs "JSON") as [_ Hjson].
  split; [apply Hcsv; discriminate |].
  destruct Hjson as [doc [Hd [Hc [Hl _]]]]; [reflexivity |].
  exists doc. split; [exact Hd |]. rewrite Hc, Hl. reflexivity.
Defined.
